(** * celery.worker.consumer: the Consumer core of the worker

    A shallow embedding of [celery/worker/consumer/__init__.py].  Methods of
    the module become computations in a small monad that threads the mutable
    state of the consumer, records every call made on a collaborator (logger,
    broker message, timer, ready queue, boot steps, ...) in an ordered list
    of events, and returns either a value or the exception that was raised. *)

From Stdlib Require Import ZArith Lia.
From stdpp Require Import base strings list gmap.

Local Open Scope string_scope.
Local Open Scope Z_scope.
Local Open Scope list_scope.
Local Open Scope stdpp_scope.

(** ** Exceptions *)

(** An exception instance carries the names of the classes of its method
    resolution order (its own class first), which is what [except] clauses
    and [isinstance] look at. *)
Record Exc := mkExc { exc_mro : list string; exc_text : string }.

(** [except classes:] catches [e] when one class of the tuple is in the MRO. *)
Definition isinstance (e : Exc) (classes : list string) : bool :=
  existsb (fun c => bool_decide (c ∈ exc_mro e)) classes.

(** How a call ends: normally, by raising, or (for the supervisory loop only)
    by exhausting the number of iterations given to the model. *)
Inductive Result (A : Type) : Type :=
  | Ok (a : A)
  | Raise (e : Exc)
  | OutOfFuel.
Arguments Ok {A} a.
Arguments Raise {A} e.
Arguments OutOfFuel {A}.

(** ** Module constants *)

Definition CONNECTION_RETRY : string :=
  "consumer: Connection to broker lost. Trying to re-establish the connection...".

(** A [str.format] template: literal text and replacement fields. *)
Inductive Piece := Lit (s : string) | FieldWhen.

(** [template.format(when=w)]. *)
Fixpoint format_when (template : list Piece) (w : string) : string :=
  match template with
  | [] => ""
  | Lit s :: rest => String.append s (format_when rest w)
  | FieldWhen :: rest => String.append w (format_when rest w)
  end.

Definition CONNECTION_RETRY_STEP : list Piece :=
  [Lit "Trying again "; FieldWhen; Lit "..."].

Definition CONNECTION_ERROR : string :=
  String.append "consumer: Cannot connect to %s: %s."
    (String (Ascii.ascii_of_nat 10) (String.append "%s" (String (Ascii.ascii_of_nat 10) ""))).

Definition CONNECTION_FAILOVER : list Piece :=
  [Lit "Will retry using next failover."].

Inductive LogLevel := DEBUG | INFO | WARN | ERROR | CRITICAL.

(** Lifecycle state of the step graph; [start] only compares it to [CLOSE]. *)
Inductive NsState := NS_INIT | NS_RUN | NS_STOP | CLOSE.

#[global] Instance NsState_eq_dec : EqDecision NsState.
Proof. solve_decision. Defined.

#[global] Instance LogLevel_eq_dec : EqDecision LogLevel.
Proof. solve_decision. Defined.

Section Consumer.

(** The carriers of [task.eta] values and of what [to_timestamp] returns. *)
Context {datetime timestamp : Type}.

(** ** Data *)

(** A task request, as far as [on_task] reads it.  [t_revoked] is what
    [task.revoked()] answers, [t_retries] is
    [task.request_dict.get('retries')]. *)
Record Task := mkTask {
  t_id : string;
  t_name : string;
  t_args : string;
  t_kwargs : string;
  t_retries : option Z;
  t_eta : option datetime;
  t_expires : option datetime;
  t_revoked : bool;
}.

(** A broker message, as far as [on_decode_error] reads it. *)
Record Message := mkMessage {
  m_body : string;
  m_content_type : string;
  m_content_encoding : string;
}.

(** A value of a connection's [info()] mapping. *)
Inductive InfoVal := IStr (s : string) | IInt (n : Z) | INone.

(** The broker connection handle.  [c_alt] is [getattr(conn, 'alt', None)]:
    [None] when the attribute is missing or is [None], else the list of
    alternate hosts. *)
Record Connection := mkConnection {
  c_uri : string;
  c_alt : option (list string);
  c_info : gmap string InfoVal;
  c_heartbeat : Z;
}.

(** Modelled from the spec: the QoS controller is created by a boot step that
    is not in this module.  It "holds the current prefetch count and a
    pending-delta"; [increment_eventually] and [decrement_eventually] "queue a
    delta to be flushed to the broker on the next flush point". *)
Record QoS := mkQoS { qos_value : Z; qos_pending : Z }.

Definition qos_increment_eventually (n : Z) (q : QoS) : QoS :=
  {| qos_value := qos_value q; qos_pending := qos_pending q + n |}.

Definition qos_decrement_eventually (n : Z) (q : QoS) : QoS :=
  {| qos_value := qos_value q; qos_pending := qos_pending q - n |}.

(** The callbacks this module hands to the timer. *)
Inductive Callback := cb_apply_eta_task.

(** Modelled from the spec: a timer entry is
    [(deadline, callback, args, priority)]. *)
Record TimerEntry := mkTimerEntry {
  te_at : timestamp;
  te_callback : Callback;
  te_args : Task;
  te_priority : Z;
}.

(** The mutable state the consumer's methods read and write. *)
Record State := mkState {
  ns_state : NsState;                   (* self.namespace.state *)
  connection : option Connection;       (* self.connection *)
  qos : QoS;                            (* self.qos *)
  timer : list TimerEntry;              (* self.timer *)
  ready_queue : list Task;              (* self.ready_queue *)
  strategies : gmap string string;      (* self.strategies *)
  tracers : gmap string string;         (* task.__trace__, by task name *)
  event_dispatcher_enabled : bool;      (* self.event_dispatcher.enabled *)
}.

(** A collaborator whose code is outside this module: it may change the
    consumer's state and may raise. *)
Definition Extern (A : Type) : Type := State -> Result A * State.

(** A boot step, as far as shutdown looks at it.  [delay_shutdown] is [None]
    when the attribute is missing. *)
Record Component := mkComponent {
  qualname : string;
  delay_shutdown : option bool;
  comp_shutdown : Extern unit;
}.

(** Arguments handed to the logger. *)
Inductive LogArg :=
  | AStr (s : string)
  | AExc (e : Exc)
  | AEta (d : datetime)
  | ATask (t : Task)
  | ATaskInfo (t : Task) (safe : bool)
  | ABody (m : Message) (body : string).

(** Calls made on collaborators, in the order they are made. *)
Inductive Event :=
  | EvLog (lvl : LogLevel) (fmt : string) (args : list LogArg) (exc_info : bool)
  | EvComponentShutdown (c : Component)
  | EvMaybeShutdown
  | EvNamespaceStart
  | EvStartSteps
  | EvLoop
  | EvRestart
  | EvInitCallback
  | EvStartStrategy (name : string)
  | EvBuildTracer (name hostname : string)
  | EvSend (event : string) (t : Task)
           (retries : Z) (eta expires : option string)
  | EvTaskAcknowledge (t : Task)
  | EvTaskReserved (t : Task)
  | EvReadyPut (t : Task)
  | EvTimerApplyAt (e : TimerEntry)
  | EvQosIncrement
  | EvQosDecrement
  | EvMessageAck (m : Message)
  | EvMessageReject (m : Message)
  | EvAppConnection (heartbeat : Z)
  | EvConnect (c : Connection)
  | EvEnsureConnection (c : Connection) (max_retries : option Z).

(** ** The monad of the model *)

(** A computation takes the state and gives the outcome, the new state (kept
    when an exception is raised, as in Python) and the events it emitted. *)
Definition M (A : Type) : Type := State -> Result A * State * list Event.

Definition ret {A} (a : A) : M A := fun s => (Ok a, s, []).

(** A run that comes after the events [evs]. *)
Definition after {A} (evs : list Event) (x : Result A * State * list Event) :
    Result A * State * list Event :=
  (x.1, evs ++ x.2).

Definition bind {A B} (m : M A) (k : A -> M B) : M B := fun s =>
  match m s with
  | (Ok a, s1, ev1) => after ev1 (k a s1)
  | (Raise e, s1, ev1) => (Raise e, s1, ev1)
  | (OutOfFuel, s1, ev1) => (OutOfFuel, s1, ev1)
  end.

Definition raise {A} (e : Exc) : M A := fun s => (Raise e, s, []).

(** [try: m except classes: handler]. *)
Definition try_except {A} (m : M A) (classes : list string) (handler : Exc -> M A) : M A :=
  fun s =>
  match m s with
  | (Raise e, s1, ev1) =>
      if isinstance e classes
      then after ev1 (handler e s1)
      else (Raise e, s1, ev1)
  | other => other
  end.

Definition emit (e : Event) : M unit := fun s => (Ok tt, s, [e]).
Definition gets {A} (f : State -> A) : M A := fun s => (Ok (f s), s, []).
Definition modify (f : State -> State) : M unit := fun s => (Ok tt, f s, []).

(** Calling a collaborator records the call, then lets it act on the state. *)
Definition call {A} (e : Event) (f : Extern A) : M A := fun s =>
  match f s with (r, s1) => (r, s1, [e]) end.

Notation "x <- m ;; k" := (bind m (fun x => k))
  (at level 100, m at next level, right associativity).
Notation "m ;;; k" := (bind m (fun _ => k))
  (at level 100, right associativity).

Definition outcome {A} (x : Result A * State * list Event) : Result A := x.1.1.
Definition final {A} (x : Result A * State * list Event) : State := x.1.2.
Definition events {A} (x : Result A * State * list Event) : list Event := x.2.

(** The module-level logging shortcuts. *)
Definition log (lvl : LogLevel) (fmt : string) (args : list LogArg) (exc_info : bool) : M unit :=
  emit (EvLog lvl fmt args exc_info).

(** ** Namespace.shutdown *)

(** [getattr(component, 'delay_shutdown', False)], as a truth value. *)
Definition delay_flag (c : Component) : bool := default false (delay_shutdown c).

(** [Namespace._shutdown_step]: the [for] loop over [components], with the
    local list [delayed] as accumulator.  A falsy entry ([None]) is skipped. *)
Fixpoint _shutdown_step (components : list (option Component)) (force : bool)
    (delayed : list Component) : M (list Component) :=
  match components with
  | [] => ret delayed
  | None :: rest => _shutdown_step rest force delayed
  | Some component :: rest =>
      log DEBUG "Shutdown %s..." [AStr (qualname component)] false ;;;
      if negb force && delay_flag component
      then _shutdown_step rest force (delayed ++ [component])
      else (call (EvComponentShutdown component) (comp_shutdown component) ;;;
            _shutdown_step rest force delayed)
  end.

(** [Namespace.shutdown(parent)], with [parent.components] as argument. *)
Definition Namespace_shutdown (components : list (option Component)) : M unit :=
  delayed <- _shutdown_step components false [] ;;
  _shutdown_step (map Some delayed) true [] ;;;
  ret tt.

(** ** Collaborators imported by the module *)

(** [celery.utils.timer2.to_timestamp]: a timestamp, or the exception raised. *)
Variable to_timestamp : datetime -> Exc + timestamp.
(** [datetime.isoformat]. *)
Variable isoformat : datetime -> string.
(** [celery.utils.timeutils.humanize_seconds(secs, prefix, sep)]. *)
Variable humanize_seconds : Z -> string -> string -> string.
(** [celery.worker.state.maybe_shutdown]. *)
Variable maybe_shutdown : Extern unit.

(** ** The consumer *)

(** The attributes of [self] set by [__init__] and the collaborators reached
    through them (the application, its configuration, the step graph). *)
Record Consumer := mkConsumer {
  hostname : string;
  connection_errors : list string;
  channel_errors : list string;
  _does_info : bool;
  amqheartbeat : Z;
  init_callback : Extern unit;
  (* self.loop, applied to self.loop_args() *)
  loop : Extern unit;
  (* self.app.tasks.iteritems(): name, and what task.start_strategy gives *)
  app_tasks : list (string * string);
  (* self.app.conf *)
  BROKER_CONNECTION_RETRY : bool;
  BROKER_CONNECTION_MAX_RETRIES : option Z;
  (* self.app.connection(heartbeat=...) *)
  app_connection : Z -> Connection;
  (* conn.connect() *)
  connect : Connection -> Extern unit;
  (* conn.ensure_connection(errback, max_retries, callback=...) *)
  ensure_connection :
    Connection -> (Exc -> Z -> M unit) -> option Z -> M unit -> M Connection;
  (* the boot steps' start, and self.namespace.restart(self) *)
  start_steps : Extern unit;
  namespace_restart : Extern unit;
}.

(** *** Strategy rebuild and the start hook *)

(** [Consumer.update_strategies]. *)
Fixpoint update_strategies_loop (self : Consumer) (tasks : list (string * string)) : M unit :=
  match tasks with
  | [] => ret tt
  | (name, strategy) :: rest =>
      emit (EvStartStrategy name) ;;;
      modify (fun s => mkState (ns_state s) (connection s) (qos s) (timer s)
                         (ready_queue s) (<[name := strategy]> (strategies s))
                         (tracers s) (event_dispatcher_enabled s)) ;;;
      emit (EvBuildTracer name (hostname self)) ;;;
      modify (fun s => mkState (ns_state s) (connection s) (qos s) (timer s)
                         (ready_queue s) (strategies s)
                         (<[name := hostname self]> (tracers s))
                         (event_dispatcher_enabled s)) ;;;
      update_strategies_loop self rest
  end.

Definition update_strategies (self : Consumer) : M unit :=
  update_strategies_loop self (app_tasks self).

(** [Consumer.on_start]. *)
Definition on_start (self : Consumer) : M unit :=
  update_strategies self ;;;
  call EvInitCallback (init_callback self).

(** Modelled from the spec: [start] of the base step-graph controller
    ([celery.worker.bootsteps.Namespace]) is not in this module.  The consumer
    passes [on_start] to it as its start hook; the controller runs the hook
    ("strategies ... rebuilt from the task registry on every (re)start") and
    starts "all boot steps in order". *)
Definition Namespace_start (self : Consumer) : M unit :=
  emit EvNamespaceStart ;;;
  on_start self ;;;
  call EvStartSteps (start_steps self).

(** [Consumer.restart]. *)
Definition restart (self : Consumer) : M unit :=
  call EvRestart (namespace_restart self).

(** *** The supervisory loop *)

Definition out_of_fuel {A} : M A := fun s => (OutOfFuel, s, []).

(** [Consumer.start]: the [while ns.state != CLOSE] loop, run for at most
    [fuel] iterations. *)
Fixpoint start (self : Consumer) (fuel : nat) : M unit :=
  st <- gets ns_state ;;
  if decide (st = CLOSE) then ret tt
  else
    match fuel with
    | O => out_of_fuel
    | S fuel' =>
        call EvMaybeShutdown maybe_shutdown ;;;
        try_except
          (Namespace_start self ;;;
           call EvLoop (loop self))
          (connection_errors self ++ channel_errors self)
          (fun _ =>
             log ERROR CONNECTION_RETRY [] true ;;;
             restart self) ;;;
        start self fuel'
    end.

(** *** Decode errors *)

(** [Consumer.on_decode_error]. *)
Definition on_decode_error (message : Message) (exc : Exc) : M unit :=
  log CRITICAL "Can't decode message body: %r (type:%r encoding:%r raw:%r')"
      [AExc exc; AStr (m_content_type message); AStr (m_content_encoding message);
       ABody message (m_body message)] false ;;;
  emit (EvMessageAck message).

(** *** Establishing the connection *)

(** The truth value of [getattr(conn, 'alt', None)]. *)
Definition alt_truthy (conn : Connection) : bool :=
  match c_alt conn with
  | Some (_ :: _) => true
  | _ => false
  end.

(** The closure [_error_handler(exc, interval, next_step)] of
    [_open_connection], over the connection [conn]. *)
Definition _error_handler_from (conn : Connection) (exc : Exc) (interval : Z)
    (next_step : list Piece) : M unit :=
  let next_step :=
    if alt_truthy conn && (interval =? 0) then CONNECTION_FAILOVER else next_step in
  log ERROR CONNECTION_ERROR
      [AStr (c_uri conn); AExc exc;
       AStr (format_when next_step (humanize_seconds interval "in" " "))] false.

(** The handler as [ensure_connection] calls it: [next_step] has its default. *)
Definition _error_handler (conn : Connection) (exc : Exc) (interval : Z) : M unit :=
  _error_handler_from conn exc interval CONNECTION_RETRY_STEP.

(** [Consumer._open_connection]. *)
Definition _open_connection (self : Consumer) : M Connection :=
  emit (EvAppConnection (amqheartbeat self)) ;;;
  let conn := app_connection self (amqheartbeat self) in
  if negb (BROKER_CONNECTION_RETRY self)
  then (call (EvConnect conn) (connect self conn) ;;;
        ret conn)
  else (emit (EvEnsureConnection conn (BROKER_CONNECTION_MAX_RETRIES self)) ;;;
        ensure_connection self conn (_error_handler conn)
          (BROKER_CONNECTION_MAX_RETRIES self)
          (call EvMaybeShutdown maybe_shutdown)).

(** *** Introspection *)

(** The values of the mapping [info] returns. *)
Inductive InfoEntry := EDict (d : gmap string InfoVal) | EInt (n : Z).

(** [Consumer.info]. *)
Definition info (s : State) : gmap string InfoEntry :=
  let conninfo :=
    match connection s with
    | Some conn => delete "password" (c_info conn)
    | None => ∅
    end in
  <["broker" := EDict conninfo]> (<["prefetch_count" := EInt (qos_value (qos s))]> ∅).

(** *** Task ingestion *)

(** [state.task_reserved(task)]. *)
Definition task_reserved (task : Task) : M unit := emit (EvTaskReserved task).

(** [self._quick_put(task)], that is [self.ready_queue.put(task)]. *)
Definition _quick_put (task : Task) : M unit :=
  emit (EvReadyPut task) ;;;
  modify (fun s => mkState (ns_state s) (connection s) (qos s) (timer s)
                     (ready_queue s ++ [task]) (strategies s) (tracers s)
                     (event_dispatcher_enabled s)).

Definition with_qos (f : QoS -> QoS) (s : State) : State :=
  mkState (ns_state s) (connection s) (f (qos s)) (timer s)
    (ready_queue s) (strategies s) (tracers s) (event_dispatcher_enabled s).

(** [self.qos.increment_eventually()] and [self.qos.decrement_eventually()]. *)
Definition increment_eventually : M unit :=
  emit EvQosIncrement ;;; modify (with_qos (qos_increment_eventually 1)).
Definition decrement_eventually : M unit :=
  emit EvQosDecrement ;;; modify (with_qos (qos_decrement_eventually 1)).

(** [self.timer.apply_at(eta, fun, args, priority=...)]. *)
Definition timer_apply_at (eta : timestamp) (cb : Callback) (task : Task)
    (priority : Z) : M unit :=
  let entry := mkTimerEntry eta cb task priority in
  emit (EvTimerApplyAt entry) ;;;
  modify (fun s => mkState (ns_state s) (connection s) (qos s) (timer s ++ [entry])
                     (ready_queue s) (strategies s) (tracers s)
                     (event_dispatcher_enabled s)).

(** A call of a function that returns or raises without other effect. *)
Definition lift_sum {A} (x : Exc + A) : M A :=
  match x with
  | inl e => raise e
  | inr a => ret a
  end.

(** [try: x = body except classes as exc: handler(exc) else: orelse(x)]. *)
Definition try_except_else {A B} (body : M A) (classes : list string)
    (handler : Exc -> M B) (orelse : A -> M B) : M B := fun s =>
  match body s with
  | (Ok a, s1, ev1) => after ev1 (orelse a s1)
  | (Raise e, s1, ev1) =>
      if isinstance e classes
      then after ev1 (handler e s1)
      else (Raise e, s1, ev1)
  | (OutOfFuel, s1, ev1) => (OutOfFuel, s1, ev1)
  end.

(** [Consumer.on_task]. *)
Definition on_task (self : Consumer) (task : Task) : M unit :=
  if t_revoked task then ret tt
  else
    (if _does_info self
     then log INFO "Got task from broker: %s" [ATask task] false
     else ret tt) ;;;
    enabled <- gets event_dispatcher_enabled ;;
    (if enabled : bool
     then emit (EvSend "task-received" task (default 0 (t_retries task))
                  (isoformat <$> t_eta task) (isoformat <$> t_expires task))
     else ret tt) ;;;
    match t_eta task with
    | Some task_eta =>
        try_except_else (lift_sum (to_timestamp task_eta)) ["OverflowError"]
          (fun exc =>
             log ERROR "Couldn't convert eta %s to timestamp: %r. Task: %r"
                 [AEta task_eta; AExc exc; ATaskInfo task true] true ;;;
             emit (EvTaskAcknowledge task))
          (fun eta =>
             increment_eventually ;;;
             timer_apply_at eta cb_apply_eta_task task 6)
    | None =>
        task_reserved task ;;;
        _quick_put task
    end.

(** [Consumer.apply_eta_task]. *)
Definition apply_eta_task (task : Task) : M unit :=
  task_reserved task ;;;
  _quick_put task ;;;
  decrement_eventually.

(** The components whose [shutdown] was called, in call order. *)
Definition shutdown_calls (evs : list Event) : list Component :=
  omap (fun e => match e with EvComponentShutdown c => Some c | _ => None end) evs.

(** The truthy entries of a component list. *)
Definition truthy (cs : list (option Component)) : list Component := omap id cs.

(** The components one pass calls, and those it puts aside. *)
Definition called (cs : list (option Component)) (force : bool) : list Component :=
  List.filter (fun c => negb (negb force && delay_flag c)) (truthy cs).
Definition put_aside (cs : list (option Component)) (force : bool) : list Component :=
  List.filter (fun c => negb force && delay_flag c) (truthy cs).

Definition non_delayed (cs : list (option Component)) : list Component :=
  List.filter (fun c => negb (delay_flag c)) (truthy cs).
Definition delayed_steps (cs : list (option Component)) : list Component :=
  List.filter delay_flag (truthy cs).

(** Every [shutdown] of the list returns normally, whatever the state. *)
Definition shutdowns_return (cs : list (option Component)) : Prop :=
  ∀ c s, Some c ∈ cs → (comp_shutdown c s).1 = Ok tt.

(** *** Reading runs *)

Definition is_retry_log (e : Event) : bool :=
  match e with
  | EvLog ERROR fmt [] true => String.eqb fmt CONNECTION_RETRY
  | _ => false
  end.
Definition is_restart (e : Event) : bool :=
  match e with EvRestart => true | _ => false end.
Definition is_init_callback (e : Event) : bool :=
  match e with EvInitCallback => true | _ => false end.
Definition is_namespace_start (e : Event) : bool :=
  match e with EvNamespaceStart => true | _ => false end.

(** How many events of a kind a run made. *)
Definition count (p : Event -> bool) (evs : list Event) : nat :=
  length (List.filter p evs).

(** The body of the [try] block of [start]. *)
Definition start_try (self : Consumer) : M unit :=
  Namespace_start self ;;; call EvLoop (loop self).

(** The classes the [except] clause of [start] names. *)
Definition broker_errors (self : Consumer) : list string :=
  connection_errors self ++ channel_errors self.

(** The calls [update_strategies] makes for a task registry. *)
Definition strategy_events (self : Consumer) (tasks : list (string * string)) : list Event :=
  flat_map (fun nt => [EvStartStrategy nt.1; EvBuildTracer nt.1 (hostname self)]) tasks.

(** What [on_task] does for a task that is not revoked before it looks at
    the eta: the INFO line when INFO logging is on, the [task-received] event
    when the dispatcher is enabled. *)
Definition on_task_preamble (self : Consumer) (task : Task) (s : State) : list Event :=
  (if _does_info self
   then [EvLog INFO "Got task from broker: %s" [ATask task] false] else []) ++
  (if event_dispatcher_enabled s
   then [EvSend "task-received" task (default 0 (t_retries task))
           (isoformat <$> t_eta task) (isoformat <$> t_expires task)]
   else []).

(** Ingestions of tasks and firings of the timer, in the order they happen. *)
Inductive Op := Ingest (t : Task) | Fire (t : Task).

Definition run_op (self : Consumer) (op : Op) : M unit :=
  match op with
  | Ingest t => on_task self t
  | Fire t => apply_eta_task t
  end.

Fixpoint run_ops (self : Consumer) (ops : list Op) : M unit :=
  match ops with
  | [] => ret tt
  | op :: rest => run_op self op ;;; run_ops self rest
  end.

(** The task is not revoked and has an eta that converts to a timestamp. *)
Definition eta_schedulable (t : Task) : bool :=
  negb (t_revoked t) &&
  match t_eta t with
  | Some d => match to_timestamp d with inr _ => true | inl _ => false end
  | None => false
  end.

Definition is_eta_op (op : Op) : bool :=
  match op with
  | Ingest t => eta_schedulable t
  | Fire _ => true
  end.

Definition is_ingest (op : Op) : bool :=
  match op with Ingest _ => true | Fire _ => false end.
Definition is_fire (op : Op) : bool :=
  match op with Ingest _ => false | Fire _ => true end.

Definition ingested (ops : list Op) : nat := length (List.filter is_ingest ops).
Definition fired (ops : list Op) : nat := length (List.filter is_fire ops).

Definition is_qos_increment (e : Event) : bool :=
  match e with EvQosIncrement => true | _ => false end.
Definition is_qos_decrement (e : Event) : bool :=
  match e with EvQosDecrement => true | _ => false end.

Definition FAILOVER_MESSAGE : string := "Will retry using next failover.".

(** The continuation message of the retry step for a humanized interval. *)
Definition retry_step_message (when : string) : string :=
  String.append "Trying again " (String.append when "...").

(** ** Further methods of the consumer *)

(** [celery.utils.text.dump_body(message, body)], [safe_repr] of a string,
    and [safe_repr(message.delivery_info)]. *)
Variable dump_body : Message -> string -> string.
Variable safe_repr : string -> string.
Variable delivery_info_repr : Message -> string.











(** The classes [maybe_conn_error] ignores. *)
Definition ignored_errors (self : Consumer) : list string :=
  "AttributeError" :: connection_errors self ++ channel_errors self.

(** [Consumer.maybe_conn_error(fun)]. *)
Definition maybe_conn_error {A} (self : Consumer) (fun_ : M A) : M unit :=
  try_except (fun_ ;;; ret tt) (ignored_errors self) (fun _ => ret tt).

(** *** Reading runs, continued *)


(** The task reached one of the ends [on_task] has for it. *)
Definition is_terminal (e : Event) : bool :=
  match e with
  | EvReadyPut _ | EvTimerApplyAt _ | EvTaskAcknowledge _ => true
  | _ => false
  end.

(** The hand-off of tasks to the pool: reservations and ready-queue puts. *)
Definition hand_off (evs : list Event) : list Event :=
  List.filter
    (fun e => match e with EvTaskReserved _ | EvReadyPut _ => true | _ => false end) evs.

(** The task has no eta. *)
Definition no_eta (t : Task) : bool :=
  match t_eta t with None => true | Some _ => false end.

(** The step names announced by the DEBUG lines of a shutdown. *)
Definition announced (evs : list Event) : list string :=
  omap (fun e => match e with
                 | EvLog DEBUG _ [AStr name] _ => Some name
                 | _ => None
                 end) evs.





(** * Properties *)

(** An event is not among those of an explicit list. *)
Ltac absent :=
  let H := fresh "Hin" in
  intros H;
  repeat (apply elem_of_cons in H as [H|H]; [discriminate H|]);
  by apply elem_of_nil in H.

(** ** Namespace.shutdown *)

Lemma shutdown_calls_app (e1 e2 : list Event) :
  shutdown_calls (e1 ++ e2) = shutdown_calls e1 ++ shutdown_calls e2.
Proof. unfold shutdown_calls. apply omap_app. Qed.

Lemma truthy_map_Some (l : list Component) : truthy (map Some l) = l.
Proof. induction l as [|c l IH]; simpl; [done|]. unfold truthy in *. simpl. by rewrite IH. Qed.

Lemma called_false (cs : list (option Component)) : called cs false = non_delayed cs.
Proof. reflexivity. Qed.

Lemma called_true (cs : list (option Component)) : called cs true = truthy cs.
Proof.
  unfold called. generalize (truthy cs). intros l.
  induction l as [|c l IH]; [done|]. cbn [List.filter]. rewrite IH. done.
Qed.

Lemma put_aside_false (cs : list (option Component)) : put_aside cs false = delayed_steps cs.
Proof. reflexivity. Qed.

(** One pass: the calls made are a prefix of the calls due; a pass that
    returns has made them all and returns the steps it put aside. *)
Lemma _shutdown_step_spec (cs : list (option Component)) (force : bool) :
  ∀ (acc : list Component) (s : State),
    let r := _shutdown_step cs force acc s in
    shutdown_calls (events r) `prefix_of` called cs force ∧
    ∀ d, outcome r = Ok d →
         d = acc ++ put_aside cs force ∧ shutdown_calls (events r) = called cs force.
Proof.
  induction cs as [|[c|] cs IH]; intros acc s; simpl.
  - split; [done|]. intros d [= <-]. by rewrite app_nil_r.
  - unfold bind, log, emit; simpl.
    unfold called, put_aside, truthy; simpl.
    destruct (negb force && delay_flag c) eqn:Hd; simpl.
    + specialize (IH (acc ++ [c]) s). simpl in IH.
      destruct (_shutdown_step cs force (acc ++ [c]) s) as [[r s2] ev2]; simpl in *.
      destruct IH as (Hp & Hok). split; [done|].
      intros d Hr. destruct (Hok d Hr) as [-> ->]. by rewrite <- app_assoc.
    + unfold call. destruct (comp_shutdown c s) as [[[]|e|] s1]; simpl.
      * specialize (IH acc s1). simpl in IH.
        destruct (_shutdown_step cs force acc s1) as [[r s2] ev2]; simpl in *.
        destruct IH as (Hp & Hok). split; [by apply prefix_cons|].
        intros d Hr. destruct (Hok d Hr) as [-> ->]. done.
      * split; [apply prefix_cons, prefix_nil|]. intros d [=].
      * split; [apply prefix_cons, prefix_nil|]. intros d [=].
  - apply IH.
Qed.

(** A pass over steps whose [shutdown] returns does return. *)
Lemma _shutdown_step_returns (cs : list (option Component)) (force : bool) :
  shutdowns_return cs →
  ∀ (acc : list Component) (s : State),
    ∃ d, outcome (_shutdown_step cs force acc s) = Ok d.
Proof.
  induction cs as [|[c|] cs IH]; intros Hret acc s; simpl.
  - by eexists.
  - assert (Hcs : shutdowns_return cs).
    { intros c' s' Hin. apply Hret. by right. }
    unfold bind, log, emit; simpl.
    destruct (negb force && delay_flag c); simpl.
    + destruct (IH Hcs (acc ++ [c]) s) as [d Hd].
      destruct (_shutdown_step cs force (acc ++ [c]) s) as [[r s2] ev2]. by exists d.
    + unfold call. pose proof (Hret c s (list_elem_of_here _ _)) as Hc.
      destruct (comp_shutdown c s) as [r1 s1]; simpl in Hc; subst r1.
      destruct (IH Hcs acc s1) as [d Hd].
      destruct (_shutdown_step cs force acc s1) as [[r s2] ev2]. by exists d.
  - apply IH. intros c' s' Hin. apply Hret. by right.
Qed.

Lemma put_aside_members (cs : list (option Component)) (force : bool) (c : Component) :
  c ∈ put_aside cs force → Some c ∈ cs.
Proof.
  unfold put_aside, truthy. rewrite list_elem_of_In, filter_In, <- list_elem_of_In.
  intros [Hin _]. apply list_elem_of_omap in Hin as (x & Hx & Heq). simpl in Heq. by subst.
Qed.

(** C2. [Namespace.shutdown] is two-phase.  The events of a shutdown split
    into a first pass and a second pass; the first pass calls [shutdown] on
    steps without [delay_shutdown] only, in list order, and the second pass
    (the one run with [force=True]) on steps with [delay_shutdown] only; a
    second-pass call happens only once every non-delayed step has been
    called; and when no step's [shutdown] raises, the first pass calls every
    non-delayed step, the second every delayed step, and shutdown returns. *)
Theorem Namespace_shutdown_two_phase (cs : list (option Component)) (s : State) :
  let r := Namespace_shutdown cs s in
  ∃ first second : list Event,
    events r = first ++ second ∧
    shutdown_calls first `prefix_of` non_delayed cs ∧
    shutdown_calls second `prefix_of` delayed_steps cs ∧
    (shutdown_calls second ≠ [] → shutdown_calls first = non_delayed cs) ∧
    (outcome r = Ok tt →
       shutdown_calls first = non_delayed cs ∧
       shutdown_calls second = delayed_steps cs) ∧
    (shutdowns_return cs → outcome r = Ok tt).
Proof.
  simpl. unfold Namespace_shutdown, bind.
  pose proof (_shutdown_step_spec cs false [] s) as H1.
  pose proof (λ H, _shutdown_step_returns cs false H [] s) as T1.
  destruct (_shutdown_step cs false [] s) as [[r1 s1] ev1]; simpl in H1, T1.
  rewrite called_false, put_aside_false in H1. destruct H1 as [Hp1 Hok1].
  destruct r1 as [d|e|].
  - destruct (Hok1 d eq_refl) as [-> Hc1].
    pose proof (_shutdown_step_spec (map Some (delayed_steps cs)) true [] s1) as H2.
    pose proof (λ H, _shutdown_step_returns (map Some (delayed_steps cs)) true H [] s1) as T2.
    destruct (_shutdown_step (map Some (delayed_steps cs)) true [] s1) as [[r2 s2] ev2].
    simpl in H2, T2. rewrite called_true, truthy_map_Some in H2. destruct H2 as [Hp2 Hok2].
    exists ev1, ev2. destruct r2 as [d2|e2|]; unfold events, outcome; simpl;
      rewrite ?app_nil_r; (split; [done|]); (split; [done|]); (split; [done|]);
      (split; [done|]).
    + split; [|done]. intros _. split; [done|]. by destruct (Hok2 d2 eq_refl).
    + split; [done|]. intros Hret. destruct T2 as [d2 Hd2]; [|done].
      intros c s' Hin. apply Hret. apply list_elem_of_fmap in Hin as (c' & [= <-] & Hc').
      by apply (put_aside_members cs false).
    + split; [done|]. intros Hret. destruct T2 as [d2 Hd2]; [|done].
      intros c s' Hin. apply Hret. apply list_elem_of_fmap in Hin as (c' & [= <-] & Hc').
      by apply (put_aside_members cs false).
  - exists ev1, []. unfold events, outcome; simpl. rewrite app_nil_r.
    split; [done|]. split; [done|]. split; [apply prefix_nil|]. split; [done|].
    split; [done|]. intros Hret. by destruct (T1 Hret).
  - exists ev1, []. unfold events, outcome; simpl. rewrite app_nil_r.
    split; [done|]. split; [done|]. split; [apply prefix_nil|]. split; [done|].
    split; [done|]. intros Hret. by destruct (T1 Hret).
Qed.

(** ** The supervisory loop *)

Lemma after_nil {A} (x : Result A * State * list Event) : after [] x = x.
Proof. by destruct x as [[r s] ev]. Qed.

Lemma after_after {A} (e1 e2 : list Event) (x : Result A * State * list Event) :
  after e1 (after e2 x) = after (e1 ++ e2) x.
Proof. unfold after; simpl. by rewrite app_assoc. Qed.

Lemma count_app (p : Event -> bool) (e1 e2 : list Event) :
  count p (e1 ++ e2) = (count p e1 + count p e2)%nat.
Proof. unfold count. by rewrite List.filter_app, length_app. Qed.

(** One iteration of [start], by the way its [try] block ends. *)
Lemma start_unfold (self : Consumer) (fuel : nat) (s : State) :
  ns_state s ≠ CLOSE →
  start self (S fuel) s =
  match maybe_shutdown s with
  | (Ok _, s1) =>
      match start_try self s1 with
      | (Ok _, s2, ev) => after (EvMaybeShutdown :: ev) (start self fuel s2)
      | (Raise e, s2, ev) =>
          if isinstance e (broker_errors self)
          then match namespace_restart self s2 with
               | (Ok _, s3) =>
                   after (EvMaybeShutdown :: ev ++
                            [EvLog ERROR CONNECTION_RETRY [] true; EvRestart])
                         (start self fuel s3)
               | (Raise e', s3) =>
                   (Raise e', s3, EvMaybeShutdown :: ev ++
                            [EvLog ERROR CONNECTION_RETRY [] true; EvRestart])
               | (OutOfFuel, s3) =>
                   (OutOfFuel, s3, EvMaybeShutdown :: ev ++
                            [EvLog ERROR CONNECTION_RETRY [] true; EvRestart])
               end
          else (Raise e, s2, EvMaybeShutdown :: ev)
      | (OutOfFuel, s2, ev) => (OutOfFuel, s2, EvMaybeShutdown :: ev)
      end
  | (Raise e, s1) => (Raise e, s1, [EvMaybeShutdown])
  | (OutOfFuel, s1) => (OutOfFuel, s1, [EvMaybeShutdown])
  end.
Proof.
  intros Hns. cbn [start]. unfold bind at 1. unfold gets at 1. rewrite after_nil.
  destruct (decide (ns_state s = CLOSE)) as [|_]; [done|].
  unfold bind at 1. unfold call at 1.
  destruct (maybe_shutdown s) as [[[]|e|] s1]; [|done..].
  unfold bind at 1, try_except at 1. fold (start_try self). fold (broker_errors self).
  destruct (start_try self s1) as [[[[]|e|] s2] ev]; [| |done].
  - by rewrite after_after.
  - destruct (isinstance e (broker_errors self)); [|done].
    unfold bind at 1, log, emit, restart, call.
    destruct (namespace_restart self s2) as [[[]|e'|] s3]; simpl;
      rewrite ?after_after; unfold after; simpl; by rewrite <- ?app_assoc.
Qed.

Lemma start_closed (self : Consumer) (fuel : nat) (s : State) :
  ns_state s = CLOSE → start self fuel s = (Ok tt, s, []).
Proof.
  intros Hns. destruct fuel; cbn [start]; unfold bind, gets;
    (destruct (decide (ns_state s = CLOSE)); [done|contradiction]).
Qed.

(** *** The start hook *)

Lemma update_strategies_loop_run (self : Consumer) (tasks : list (string * string)) :
  ∀ s, ∃ s1,
    update_strategies_loop self tasks s = (Ok tt, s1, strategy_events self tasks)
    ∧ ns_state s1 = ns_state s.
Proof.
  induction tasks as [|[name strategy] tasks IH]; intros s; simpl.
  - by exists s.
  - unfold bind, emit, modify; simpl.
    match goal with |- context [update_strategies_loop self tasks ?s'] =>
      destruct (IH s') as (s1 & -> & Hns) end.
    exists s1. by rewrite Hns.
Qed.

Lemma strategy_events_count (self : Consumer) (tasks : list (string * string))
    (p : Event -> bool) :
  (∀ name, p (EvStartStrategy name) = false) →
  (∀ name host, p (EvBuildTracer name host) = false) →
  count p (strategy_events self tasks) = 0%nat.
Proof.
  intros H1 H2. unfold count.
  induction tasks as [|[name strategy] tasks IH]; simpl; [done|].
  by rewrite H1, H2.
Qed.

(** [on_start] runs [update_strategies], which returns, and then
    [init_callback] on the state it left. *)
Lemma on_start_run (self : Consumer) (s : State) :
  ∃ s1,
    update_strategies self s = (Ok tt, s1, strategy_events self (app_tasks self)) ∧
    on_start self s =
      ((init_callback self s1).1, (init_callback self s1).2,
       strategy_events self (app_tasks self) ++ [EvInitCallback]).
Proof.
  unfold on_start, update_strategies.
  destruct (update_strategies_loop_run self (app_tasks self) s) as (s1 & Hrun & _).
  exists s1. split; [done|]. unfold bind. rewrite Hrun. unfold call, after.
  by destruct (init_callback self s1) as [r s2].
Qed.

(** The events of the [try] block of [start]: the namespace is started, the
    hook rebuilds the strategies and calls [init_callback], and what follows
    is the start of the steps and the event loop, as far as they are reached. *)
Lemma start_try_events (self : Consumer) (s : State) :
  ∃ tail,
    events (start_try self s) =
      EvNamespaceStart :: strategy_events self (app_tasks self)
        ++ EvInitCallback :: tail
    ∧ (tail = [] ∨ tail = [EvStartSteps] ∨ tail = [EvStartSteps; EvLoop]).
Proof.
  unfold start_try, Namespace_start. unfold bind at 1. unfold bind at 1.
  unfold emit at 1. unfold bind at 1.
  destruct (on_start_run self s) as (s1 & _ & ->).
  destruct (init_callback self s1) as [[[]|e|] s2]; simpl.
  - unfold call. destruct (start_steps self s2) as [[[]|e|] s3]; simpl.
    + destruct (loop self s3) as [r s4]. exists [EvStartSteps; EvLoop].
      unfold events; simpl. rewrite <- ?(assoc_L (++)). simpl. split; [done|]. by right; right.
    + exists [EvStartSteps]. unfold events; simpl. rewrite <- ?(assoc_L (++)). simpl.
      split; [done|]. by right; left.
    + exists [EvStartSteps]. unfold events; simpl. rewrite <- ?(assoc_L (++)). simpl.
      split; [done|]. by right; left.
  - exists []. unfold events; simpl. split; [done|]. by left.
  - exists []. unfold events; simpl. split; [done|]. by left.
Qed.

Lemma start_try_counts (self : Consumer) (s : State) :
  count is_retry_log (events (start_try self s)) = 0%nat ∧
  count is_restart (events (start_try self s)) = 0%nat ∧
  count is_init_callback (events (start_try self s)) = 1%nat ∧
  count is_namespace_start (events (start_try self s)) = 1%nat.
Proof.
  destruct (start_try_events self s) as (tail & -> & Htail).
  change (EvNamespaceStart :: ?l) with ([EvNamespaceStart] ++ l).
  change (strategy_events self (app_tasks self) ++ EvInitCallback :: tail)
    with (strategy_events self (app_tasks self) ++ [EvInitCallback] ++ tail).
  rewrite !count_app, !strategy_events_count by done.
  destruct Htail as [-> | [-> | ->]]; done.
Qed.

Lemma Namespace_start_events (self : Consumer) (s : State) :
  ∃ tail,
    events (Namespace_start self s) =
      EvNamespaceStart :: strategy_events self (app_tasks self)
        ++ EvInitCallback :: tail
    ∧ (tail = [] ∨ tail = [EvStartSteps]).
Proof.
  unfold Namespace_start. unfold bind at 1. unfold emit at 1. unfold bind at 1.
  destruct (on_start_run self s) as (s1 & _ & ->).
  destruct (init_callback self s1) as [[[]|e|] s2]; simpl.
  - unfold call. destruct (start_steps self s2) as [r s3]. exists [EvStartSteps].
    unfold events; simpl. rewrite <- ?(assoc_L (++)). simpl. split; [done|]. by right.
  - exists []. unfold events; simpl. split; [done|]. by left.
  - exists []. unfold events; simpl. split; [done|]. by left.
Qed.

(** In every run of [start], the retry message is logged as often as
    [restart] is called, and [init_callback] is called as often as the
    namespace is started. *)
Lemma start_counts (self : Consumer) (fuel : nat) :
  ∀ s,
    count is_retry_log (events (start self fuel s)) =
      count is_restart (events (start self fuel s)) ∧
    count is_init_callback (events (start self fuel s)) =
      count is_namespace_start (events (start self fuel s)).
Proof.
  induction fuel as [|fuel IH]; intros s.
  - cbn [start]. unfold bind, gets, out_of_fuel. by destruct (decide (ns_state s = CLOSE)).
  - destruct (decide (ns_state s = CLOSE)) as [Hc|Hc].
    { by rewrite start_closed. }
    rewrite start_unfold by done.
    destruct (maybe_shutdown s) as [[[]|e|] s1]; [|done..].
    pose proof (start_try_counts self s1) as (T1 & T2 & T3 & T4).
    destruct (start_try self s1) as [[[[]|e|] s2] ev]; unfold events in *; simpl in *.
    + destruct (IH s2) as [I1 I2].
      change (EvMaybeShutdown :: ev ++ ?l) with ([EvMaybeShutdown] ++ ev ++ l).
      rewrite !count_app, T1, T2, T3, T4, I1, I2. done.
    + destruct (isinstance e (broker_errors self)).
      * destruct (namespace_restart self s2) as [[[]|e'|] s3]; simpl.
        -- destruct (IH s3) as [I1 I2].
           change (EvMaybeShutdown :: ?l) with ([EvMaybeShutdown] ++ l).
           rewrite !count_app, T1, T2, T3, T4, I1, I2. done.
        -- change (EvMaybeShutdown :: ?l) with ([EvMaybeShutdown] ++ l).
           rewrite !count_app, T1, T2, T3, T4. done.
        -- change (EvMaybeShutdown :: ?l) with ([EvMaybeShutdown] ++ l).
           rewrite !count_app, T1, T2, T3, T4. done.
      * simpl. change (EvMaybeShutdown :: ?l) with ([EvMaybeShutdown] ++ l).
        rewrite !count_app, T1, T2, T3, T4. done.
    + change (EvMaybeShutdown :: ?l) with ([EvMaybeShutdown] ++ l).
      rewrite !count_app, T1, T2, T3, T4. done.
Qed.

(** C1. [Consumer.start] iterates while [ns.state != CLOSE]: with the state
    at [CLOSE] it returns at once.  Otherwise, when [maybe_shutdown] returns:
    a [try] block that returns lets the loop go on; a [try] block (boot steps
    or event loop) raising an error of a kind in [connection_errors] or
    [channel_errors] is answered by the [CONNECTION_RETRY] message at ERROR
    and a call of [restart], and when that returns the loop goes on from the
    state it left; an error of any other kind propagates out of [start], as
    do the errors of [maybe_shutdown] and of [restart].  In every run the
    retry message is logged exactly as often as [restart] is called. *)
Theorem start_survives_broker_errors (self : Consumer) (fuel : nat) (s : State) :
  (ns_state s = CLOSE → start self fuel s = (Ok tt, s, [])) ∧
  (ns_state s ≠ CLOSE →
     (∀ e s1, maybe_shutdown s = (Raise e, s1) →
        start self (S fuel) s = (Raise e, s1, [EvMaybeShutdown])) ∧
     (∀ s1, maybe_shutdown s = (Ok tt, s1) →
        (∀ s2 ev, start_try self s1 = (Ok tt, s2, ev) →
           start self (S fuel) s = after (EvMaybeShutdown :: ev) (start self fuel s2)) ∧
        (∀ e s2 ev, start_try self s1 = (Raise e, s2, ev) →
           (isinstance e (broker_errors self) = true →
              (∀ s3, namespace_restart self s2 = (Ok tt, s3) →
                 start self (S fuel) s =
                   after (EvMaybeShutdown :: ev ++
                            [EvLog ERROR CONNECTION_RETRY [] true; EvRestart])
                         (start self fuel s3)) ∧
              (∀ e' s3, namespace_restart self s2 = (Raise e', s3) →
                 start self (S fuel) s =
                   (Raise e', s3, EvMaybeShutdown :: ev ++
                            [EvLog ERROR CONNECTION_RETRY [] true; EvRestart]))) ∧
           (isinstance e (broker_errors self) = false →
              start self (S fuel) s = (Raise e, s2, EvMaybeShutdown :: ev))))) ∧
  count is_retry_log (events (start self fuel s)) =
    count is_restart (events (start self fuel s)).
Proof.
  split; [apply start_closed|]. split; [|apply start_counts].
  intros Hns. split.
  - intros e s1 Hm. by rewrite start_unfold, Hm.
  - intros s1 Hm. split.
    + intros s2 ev Ht. by rewrite start_unfold, Hm, Ht.
    + intros e s2 ev Ht. split.
      * intros He. split.
        -- intros s3 Hr. by rewrite start_unfold, Hm, Ht, He, Hr.
        -- intros e' s3 Hr. by rewrite start_unfold, Hm, Ht, He, Hr.
      * intros He. by rewrite start_unfold, Hm, Ht, He.
Qed.

(** C10. Every call of [on_start] first runs [update_strategies] and then
    calls [init_callback]; every start of the step graph makes exactly one
    call of [init_callback]; in every run of [start] the callback is called
    as often as the step graph is started; and an iteration that ends in a
    broker error and a restart adds its own call to those of the iterations
    that follow, so the callback runs again at every restart. *)
Theorem init_callback_on_every_start (self : Consumer) (fuel : nat) (s : State) :
  (∃ s1,
     update_strategies self s = (Ok tt, s1, strategy_events self (app_tasks self)) ∧
     on_start self s =
       ((init_callback self s1).1, (init_callback self s1).2,
        strategy_events self (app_tasks self) ++ [EvInitCallback])) ∧
  count is_init_callback (events (Namespace_start self s)) = 1%nat ∧
  count is_init_callback (events (start self fuel s)) =
    count is_namespace_start (events (start self fuel s)) ∧
  (ns_state s ≠ CLOSE →
   ∀ s1 e s2 ev s3,
     maybe_shutdown s = (Ok tt, s1) →
     start_try self s1 = (Raise e, s2, ev) →
     isinstance e (broker_errors self) = true →
     namespace_restart self s2 = (Ok tt, s3) →
     count is_init_callback (events (start self (S fuel) s)) =
       S (count is_init_callback (events (start self fuel s3)))).
Proof.
  split; [apply on_start_run|]. split.
  { destruct (Namespace_start_events self s) as (tail & -> & Htail).
    change (EvNamespaceStart :: ?l) with ([EvNamespaceStart] ++ l).
    change (strategy_events self (app_tasks self) ++ EvInitCallback :: tail)
      with (strategy_events self (app_tasks self) ++ [EvInitCallback] ++ tail).
    rewrite !count_app, !strategy_events_count by done.
    by destruct Htail as [-> | ->]. }
  split; [apply start_counts|].
  intros Hns s1 e s2 ev s3 Hm Ht He Hr.
  rewrite start_unfold, Hm, Ht, He, Hr by done.
  pose proof (start_try_counts self s1) as (_ & _ & T3 & _).
  rewrite Ht in T3. unfold events in *; simpl in *.
  change (EvMaybeShutdown :: ?l) with ([EvMaybeShutdown] ++ l).
  rewrite !count_app, T3. done.
Qed.

(** ** Decode errors *)

(** C8. [on_decode_error] logs at CRITICAL, with the exception, the content
    type, the content encoding and the dumped raw body, and then acknowledges
    the message; these are its only two calls, so it rejects nothing, and it
    leaves the state, with the ready queue and the timer, as it was. *)
Theorem on_decode_error_logs_then_acks (message : Message) (exc : Exc) (s : State) :
  on_decode_error message exc s =
    (Ok tt, s,
     [EvLog CRITICAL "Can't decode message body: %r (type:%r encoding:%r raw:%r')"
        [AExc exc; AStr (m_content_type message); AStr (m_content_encoding message);
         ABody message (m_body message)] false;
      EvMessageAck message]) ∧
(EvMessageReject message ∉ events (on_decode_error message exc s)) ∧
  ready_queue (final (on_decode_error message exc s)) = ready_queue s ∧
  timer (final (on_decode_error message exc s)) = timer s.
Proof.
  split; [reflexivity|]. split; [|done].
  unfold events; simpl. absent.
Qed.

(** ** Establishing the connection *)

(** C6. The retry error handler logs one ERROR line with the target URI, the
    exception and a continuation message.  The message is the failover
    message exactly when the connection has a non-empty [alt] and the
    interval is 0; otherwise it is "Trying again ...", filled with the
    humanized interval. *)
Theorem error_handler_message (conn : Connection) (exc : Exc) (interval : Z) (s : State) :
  ∃ msg,
    _error_handler conn exc interval s =
      (Ok tt, s, [EvLog ERROR CONNECTION_ERROR [AStr (c_uri conn); AExc exc; AStr msg] false]) ∧
    (msg = FAILOVER_MESSAGE ↔
       (∃ host hosts, c_alt conn = Some (host :: hosts)) ∧ interval = 0) ∧
    (msg ≠ FAILOVER_MESSAGE →
       msg = retry_step_message (humanize_seconds interval "in" " ")).
Proof.
  unfold _error_handler, _error_handler_from, log, emit, alt_truthy.
  destruct (c_alt conn) as [[|host hosts]|] eqn:Halt; simpl;
    try (eexists; split; [reflexivity|]; split; [|done]; split;
         [discriminate | by intros [(h & hs & [=]) _]]).
  destruct (Z.eqb_spec interval 0) as [->|Hne]; eexists; (split; [reflexivity|]).
  - split; [|done]. split; [by eauto|done].
  - split; [|done]. split; [discriminate|by intros [_ ?]].
Qed.

(** C7. With [BROKER_CONNECTION_RETRY] false, [_open_connection] builds the
    connection, calls [connect()] on it once and returns it; when [connect]
    raises, the exception propagates; in both cases these are the only calls,
    so [ensure_connection], its error handler and its [maybe_shutdown]
    callback are not run. *)
Theorem open_connection_without_retry (self : Consumer) (s : State) :
  BROKER_CONNECTION_RETRY self = false →
  let conn := app_connection self (amqheartbeat self) in
  events (_open_connection self s) = [EvAppConnection (amqheartbeat self); EvConnect conn] ∧
  final (_open_connection self s) = (connect self conn s).2 ∧
  (∀ x, (connect self conn s).1 = Ok x → outcome (_open_connection self s) = Ok conn) ∧
  (∀ e, (connect self conn s).1 = Raise e → outcome (_open_connection self s) = Raise e).
Proof.
  intros Hr. unfold _open_connection. rewrite Hr. simpl.
  unfold bind, emit, call, after; simpl.
  destruct (connect self (app_connection self (amqheartbeat self)) s) as [[x|e|] s1]; simpl;
    repeat split; try done; intros ? [=]; by subst.
Qed.

(** ** Introspection *)

(** C9. [info] has exactly the keys [broker] and [prefetch_count];
    [prefetch_count] is [qos.value]; [broker] is the connection's [info()]
    without [password] when there is a connection, and empty otherwise. *)
Theorem info_keys_and_values (s : State) :
  dom (info s) =@{gset string} {["broker"; "prefetch_count"]} ∧
  info s !! "prefetch_count" = Some (EInt (qos_value (qos s))) ∧
  match connection s with
  | Some conn =>
      info s !! "broker" = Some (EDict (delete "password" (c_info conn))) ∧
      delete "password" (c_info conn) !! "password" = None ∧
      (∀ k, k ≠ "password" → delete "password" (c_info conn) !! k = c_info conn !! k)
  | None => info s !! "broker" = Some (EDict ∅)
  end.
Proof.
  unfold info. split; [|split].
  - rewrite !dom_insert_L, dom_empty_L. set_solver.
  - rewrite lookup_insert_ne by done. by rewrite lookup_insert_eq.
  - destruct (connection s) as [conn|].
    + split; [by rewrite lookup_insert_eq|]. split; [apply lookup_delete_eq|].
      intros k Hk. by rewrite lookup_delete_ne.
    + by rewrite lookup_insert_eq.
Qed.

(** ** Task ingestion *)

(** C5. For a task whose [revoked()] answers true, [on_task] returns at
    once: it makes no call at all (no INFO line, no [task-received] event)
    and leaves the state, with timer, ready queue and qos, as it was. *)
Theorem on_task_revoked (self : Consumer) (task : Task) (s : State) :
  t_revoked task = true →
  on_task self task s = (Ok tt, s, []).
Proof. intros Hr. unfold on_task. by rewrite Hr. Qed.

(** The state is left as it was by the part of [on_task] that comes
    before the eta is looked at. *)
Lemma on_task_not_revoked (self : Consumer) (task : Task) (s : State) :
  t_revoked task = false →
  on_task self task s =
    after (on_task_preamble self task s)
      (match t_eta task with
       | Some task_eta =>
           try_except_else (lift_sum (to_timestamp task_eta)) ["OverflowError"]
             (fun exc =>
                log ERROR "Couldn't convert eta %s to timestamp: %r. Task: %r"
                    [AEta task_eta; AExc exc; ATaskInfo task true] true ;;;
                emit (EvTaskAcknowledge task))
             (fun eta =>
                increment_eventually ;;;
                timer_apply_at eta cb_apply_eta_task task 6)
       | None => task_reserved task ;;; _quick_put task
       end s).
Proof.
  intros Hr. unfold on_task, on_task_preamble. rewrite Hr.
  set (K := match t_eta task with Some _ => _ | None => _ end).
  unfold bind, gets, log, emit, ret.
  destruct (_does_info self); simpl;
    destruct (event_dispatcher_enabled s); simpl;
    by rewrite ?after_after, ?after_nil.
Qed.

(** C3. For a task that is not revoked and whose eta [to_timestamp] refuses
    with an [OverflowError], [on_task] logs at ERROR with the eta, the
    exception and the task's safe info, acknowledges the task and returns.
    After the INFO line and the [task-received] event (when they are on)
    these are its only calls: qos is not incremented, nothing is scheduled
    on the timer and nothing is put on the ready queue. *)
Theorem on_task_eta_overflow (self : Consumer) (task : Task) (s : State)
    (task_eta : datetime) (exc : Exc) :
  t_revoked task = false →
  t_eta task = Some task_eta →
  to_timestamp task_eta = inl exc →
  isinstance exc ["OverflowError"] = true →
  on_task self task s =
    (Ok tt, s,
     on_task_preamble self task s ++
     [EvLog ERROR "Couldn't convert eta %s to timestamp: %r. Task: %r"
        [AEta task_eta; AExc exc; ATaskInfo task true] true;
      EvTaskAcknowledge task]) ∧
  count is_qos_increment (events (on_task self task s)) = 0%nat ∧
  (∀ e, EvTimerApplyAt e ∉ events (on_task self task s)) ∧
  (∀ t, EvReadyPut t ∉ events (on_task self task s)).
Proof.
  intros Hr Heta Hts Hov.
  assert (Hrun : on_task self task s =
    (Ok tt, s,
     on_task_preamble self task s ++
     [EvLog ERROR "Couldn't convert eta %s to timestamp: %r. Task: %r"
        [AEta task_eta; AExc exc; ATaskInfo task true] true;
      EvTaskAcknowledge task])).
  { rewrite on_task_not_revoked, Heta by done.
    unfold try_except_else, lift_sum. rewrite Hts. unfold raise. rewrite Hov.
    reflexivity. }
  split; [done|]. rewrite Hrun. unfold events; simpl.
  unfold on_task_preamble.
  destruct (_does_info self), (event_dispatcher_enabled s); simpl.
  all: split; [done|]; split; intros x; absent.
Qed.

(** The timer callback: reserve, put on the ready queue, then give the
    slot back to qos. *)
Lemma apply_eta_task_run (task : Task) (s : State) :
  apply_eta_task task s =
    (Ok tt,
     mkState (ns_state s) (connection s) (qos_decrement_eventually 1 (qos s)) (timer s)
       (ready_queue s ++ [task]) (strategies s) (tracers s) (event_dispatcher_enabled s),
     [EvTaskReserved task; EvReadyPut task; EvQosDecrement]).
Proof. reflexivity. Qed.

(** Ingestion of a task whose eta converts: qos is incremented, then the
    task is scheduled on the timer with priority 6. *)
Lemma on_task_eta_scheduled (self : Consumer) (task : Task) (s : State) :
  eta_schedulable task = true →
  ∃ task_eta eta,
    t_eta task = Some task_eta ∧ to_timestamp task_eta = inr eta ∧
    on_task self task s =
      (Ok tt,
       mkState (ns_state s) (connection s) (qos_increment_eventually 1 (qos s))
         (timer s ++ [mkTimerEntry eta cb_apply_eta_task task 6])
         (ready_queue s) (strategies s) (tracers s) (event_dispatcher_enabled s),
       on_task_preamble self task s ++
       [EvQosIncrement; EvTimerApplyAt (mkTimerEntry eta cb_apply_eta_task task 6)]).
Proof.
  unfold eta_schedulable. intros [Hr Hd]%andb_true_iff.
  apply negb_true_iff in Hr.
  destruct (t_eta task) as [task_eta|] eqn:Heta; [|done].
  destruct (to_timestamp task_eta) as [exc|eta] eqn:Hts; [done|].
  exists task_eta, eta. split; [done|]. split; [done|].
  rewrite on_task_not_revoked, Heta by done.
  unfold try_except_else, lift_sum. rewrite Hts. reflexivity.
Qed.

Lemma on_task_preamble_counts (self : Consumer) (task : Task) (s : State) :
  count is_qos_increment (on_task_preamble self task s) = 0%nat ∧
  count is_qos_decrement (on_task_preamble self task s) = 0%nat.
Proof.
  unfold on_task_preamble.
  by destruct (_does_info self), (event_dispatcher_enabled s).
Qed.

(** C4. Qos balance.  An ingestion of a schedulable ETA task calls
    [qos.increment_eventually] exactly once and no decrement; a timer fire
    calls, in this order, [task_reserved], the ready-queue put and
    [qos.decrement_eventually] (once).  So a finite sequence of such
    ingestions and fires runs to its end, increments qos once per ingestion
    and decrements it once per fire, and leaves the pending delta of qos
    changed by the number of ingestions minus the number of fires. *)
Theorem qos_balance (self : Consumer) (ops : list Op) (s : State) :
  forallb is_eta_op ops = true →
  (∀ t s', eta_schedulable t = true →
     outcome (on_task self t s') = Ok tt ∧
     count is_qos_increment (events (on_task self t s')) = 1%nat ∧
     count is_qos_decrement (events (on_task self t s')) = 0%nat) ∧
  (∀ t s', outcome (apply_eta_task t s') = Ok tt ∧
     events (apply_eta_task t s') = [EvTaskReserved t; EvReadyPut t; EvQosDecrement]) ∧
  outcome (run_ops self ops s) = Ok tt ∧
  count is_qos_increment (events (run_ops self ops s)) = ingested ops ∧
  count is_qos_decrement (events (run_ops self ops s)) = fired ops ∧
  qos_pending (qos (final (run_ops self ops s))) - qos_pending (qos s) =
    Z.of_nat (ingested ops) - Z.of_nat (fired ops).
Proof.
  intros Hops.
  assert (Hing : ∀ t s', eta_schedulable t = true →
     outcome (on_task self t s') = Ok tt ∧
     count is_qos_increment (events (on_task self t s')) = 1%nat ∧
     count is_qos_decrement (events (on_task self t s')) = 0%nat).
  { intros t s' Ht.
    destruct (on_task_eta_scheduled self t s' Ht) as (d & ts & _ & _ & ->).
    destruct (on_task_preamble_counts self t s') as [P1 P2].
    unfold outcome, events; simpl. rewrite !count_app, P1, P2. done. }
  split; [done|]. split; [done|].
  revert s Hops. induction ops as [|op ops IH]; intros s Hops.
  - unfold outcome, events, final, ingested, fired; simpl.
    repeat split; try done; lia.
  - simpl in Hops. apply andb_true_iff in Hops as [Hop Hops].
    cbn [run_ops]. unfold bind. destruct op as [t|t]; cbn [run_op].
    + destruct (on_task_eta_scheduled self t s Hop) as (d & ts & _ & _ & ->).
      destruct (on_task_preamble_counts self t s) as [P1 P2].
      match goal with |- context [run_ops self ops ?s'] =>
        destruct (IH s' Hops) as (I1 & I2 & I3 & I4) end.
      unfold outcome, events, final, after in *; simpl in *.
      rewrite !count_app, P1, P2, I2, I3. unfold ingested, fired in *; simpl in *.
      repeat split; try done. lia.
    + rewrite apply_eta_task_run.
      match goal with |- context [run_ops self ops ?s'] =>
        destruct (IH s' Hops) as (I1 & I2 & I3 & I4) end.
      unfold outcome, events, final, after in *; cbn [fst snd] in *.
      rewrite !count_app, I2, I3. unfold ingested, fired in *; simpl in *.
      repeat split; try done. lia.
Qed.

(** ** Further properties of task ingestion *)

(** A revoked task is dropped before anything is done with it. *)
Lemma on_task_drops_revoked (self : Consumer) (task : Task) (s : State) :
  t_revoked task = true → on_task self task s = (Ok tt, s, []).
Proof. intros Hr. unfold on_task. by rewrite Hr. Qed.

(** A task without eta goes straight to the pool: reserved, then put. *)
Lemma on_task_immediate_run (self : Consumer) (task : Task) (s : State) :
  t_revoked task = false → t_eta task = None →
  on_task self task s =
    (Ok tt,
     mkState (ns_state s) (connection s) (qos s) (timer s)
       (ready_queue s ++ [task]) (strategies s) (tracers s) (event_dispatcher_enabled s),
     on_task_preamble self task s ++ [EvTaskReserved task; EvReadyPut task]).
Proof.
  intros Hr Heta. rewrite on_task_not_revoked, Heta by done. reflexivity.
Qed.

Lemma hand_off_app (e1 e2 : list Event) : hand_off (e1 ++ e2) = hand_off e1 ++ hand_off e2.
Proof. unfold hand_off. apply List.filter_app. Qed.

Lemma on_task_preamble_quiet (self : Consumer) (task : Task) (s : State) :
  hand_off (on_task_preamble self task s) = [] ∧
  count is_terminal (on_task_preamble self task s) = 0%nat.
Proof.
  unfold on_task_preamble.
  by destruct (_does_info self), (event_dispatcher_enabled s).
Qed.

(** X1. Tasks that are revoked or have no eta, ingested one after the other:
    [on_task] returns for each; the ready queue grows by the tasks that are
    not revoked, in arrival order; each of them is reserved just before it
    is put; the timer and qos are left as they were. *)
Theorem on_task_immediate_fifo (self : Consumer) (tasks : list Task) (s : State) :
  forallb (fun t => t_revoked t || no_eta t) tasks = true →
  let r := run_ops self (map Ingest tasks) s in
  let accepted := List.filter (fun t => negb (t_revoked t)) tasks in
  outcome r = Ok tt ∧
  ready_queue (final r) = ready_queue s ++ accepted ∧
  hand_off (events r) = flat_map (fun t => [EvTaskReserved t; EvReadyPut t]) accepted ∧
  timer (final r) = timer s ∧
  qos (final r) = qos s.
Proof.
  simpl. revert s. induction tasks as [|t tasks IH]; intros s Hall.
  - unfold outcome, final, events; simpl. by rewrite app_nil_r.
  - simpl in Hall. apply andb_true_iff in Hall as [Ht Hall].
    cbn [map run_ops run_op List.filter]. unfold bind.
    destruct (t_revoked t) eqn:Hr; cbn [negb].
    + rewrite on_task_drops_revoked by done. rewrite after_nil. by apply IH.
    + simpl in Ht. unfold no_eta in Ht.
      destruct (t_eta t) as [d|] eqn:Heta; [done|].
      rewrite on_task_immediate_run by done.
      match goal with |- context [run_ops self (map Ingest tasks) ?s'] =>
        destruct (IH s' Hall) as (I1 & I2 & I3 & I4 & I5) end.
      destruct (on_task_preamble_quiet self t s) as [P1 _].
      unfold outcome, final, events, after in *; cbn [fst snd] in *.
      rewrite !hand_off_app, P1, I3. simpl in *.
      rewrite I2, <- app_assoc. done.
Qed.


(** X3. An error of [to_timestamp] that is not an [OverflowError] is not
    handled: it propagates out of [on_task], after the INFO line and the
    [task-received] event; the task is not acknowledged, qos is not
    incremented, and the state is left as it was. *)
Theorem on_task_eta_error_propagates (self : Consumer) (task : Task) (s : State)
    (task_eta : datetime) (exc : Exc) :
  t_revoked task = false →
  t_eta task = Some task_eta →
  to_timestamp task_eta = inl exc →
  isinstance exc ["OverflowError"] = false →
  on_task self task s = (Raise exc, s, on_task_preamble self task s) ∧
  (EvTaskAcknowledge task ∉ events (on_task self task s)) ∧
  count is_qos_increment (events (on_task self task s)) = 0%nat.
Proof.
  intros Hr Heta Hts Hov.
  assert (Hrun : on_task self task s = (Raise exc, s, on_task_preamble self task s)).
  { rewrite on_task_not_revoked, Heta by done.
    unfold try_except_else, lift_sum. rewrite Hts. unfold raise. rewrite Hov.
    unfold after; simpl. by rewrite app_nil_r. }
  split; [done|]. rewrite Hrun. unfold events; simpl.
  destruct (on_task_preamble_counts self task s) as [P1 _].
  split; [|done]. unfold on_task_preamble.
  destruct (_does_info self), (event_dispatcher_enabled s); simpl; absent.
Qed.

(** X4. The ETA round trip.  A task whose eta converts is ingested and its
    timer entry fires: both calls return, qos is back to what it was, the
    task is at the end of the ready queue, and it was put there after the
    increment and before the decrement. *)
Theorem eta_round_trip (self : Consumer) (task : Task) (s : State) :
  eta_schedulable task = true →
  let r := (on_task self task ;;; apply_eta_task task) s in
  outcome r = Ok tt ∧
  qos (final r) = qos s ∧
  ready_queue (final r) = ready_queue s ++ [task] ∧
  ∃ eta,
    events r = on_task_preamble self task s ++
      [EvQosIncrement; EvTimerApplyAt (mkTimerEntry eta cb_apply_eta_task task 6);
       EvTaskReserved task; EvReadyPut task; EvQosDecrement].
Proof.
  intros Hs. simpl. unfold bind.
  destruct (on_task_eta_scheduled self task s Hs) as (d & eta & _ & _ & ->).
  rewrite apply_eta_task_run. unfold outcome, final, events, after; simpl.
  split; [done|]. split.
  - destruct (qos s) as [v p]. unfold qos_decrement_eventually, qos_increment_eventually.
    simpl. f_equal. lia.
  - split; [done|]. exists eta. by rewrite <- app_assoc.
Qed.

(** ** Further properties of shutdown *)

Lemma announced_app (e1 e2 : list Event) :
  announced (e1 ++ e2) = announced e1 ++ announced e2.
Proof. unfold announced. apply omap_app. Qed.

(** A pass that returns has announced every truthy step, in list order. *)
Lemma _shutdown_step_announced (cs : list (option Component)) (force : bool) :
  ∀ (acc : list Component) (s : State) (d : list Component),
    outcome (_shutdown_step cs force acc s) = Ok d →
    announced (events (_shutdown_step cs force acc s)) = map qualname (truthy cs).
Proof.
  induction cs as [|[c|] cs IH]; intros acc s d; simpl.
  - done.
  - unfold bind, log, emit; simpl. unfold truthy; simpl.
    destruct (negb force && delay_flag c); simpl.
    + specialize (IH (acc ++ [c]) s).
      destruct (_shutdown_step cs force (acc ++ [c]) s) as [[r s2] ev2].
      unfold outcome, events, after in *; simpl in *.
      intros Hd. f_equal. by apply (IH d).
    + unfold call. destruct (comp_shutdown c s) as [[[]|e|] s1]; simpl; [|done..].
      specialize (IH acc s1).
      destruct (_shutdown_step cs force acc s1) as [[r s2] ev2].
      unfold outcome, events, after in *; simpl in *.
      intros Hd. f_equal. by apply (IH d).
  - apply IH.
Qed.

(** A shutdown whose steps all return: what it calls and what it announces. *)
Lemma Namespace_shutdown_returning (cs : list (option Component)) (s : State) :
  shutdowns_return cs →
  outcome (Namespace_shutdown cs s) = Ok tt ∧
  shutdown_calls (events (Namespace_shutdown cs s)) = non_delayed cs ++ delayed_steps cs ∧
  announced (events (Namespace_shutdown cs s)) =
    map qualname (truthy cs) ++ map qualname (delayed_steps cs).
Proof.
  intros Hret. unfold Namespace_shutdown, bind.
  pose proof (_shutdown_step_spec cs false [] s) as H1.
  pose proof (_shutdown_step_announced cs false [] s) as A1.
  destruct (_shutdown_step_returns cs false Hret [] s) as [d Hd].
  destruct (_shutdown_step cs false [] s) as [[r1 s1] ev1]; simpl in *.
  unfold outcome in Hd; simpl in Hd; subst r1.
  rewrite called_false, put_aside_false in H1. destruct H1 as [_ Hok1].
  destruct (Hok1 d eq_refl) as [-> Hc1]. specialize (A1 _ eq_refl).
  assert (Hret2 : shutdowns_return (map Some (delayed_steps cs))).
  { intros c s' Hin. apply Hret. apply list_elem_of_fmap in Hin as (c' & [= <-] & Hc').
    by apply (put_aside_members cs false). }
  pose proof (_shutdown_step_spec (map Some (delayed_steps cs)) true [] s1) as H2.
  pose proof (_shutdown_step_announced (map Some (delayed_steps cs)) true [] s1) as A2.
  destruct (_shutdown_step_returns (map Some (delayed_steps cs)) true Hret2 [] s1) as [d2 Hd2].
  destruct (_shutdown_step (map Some (delayed_steps cs)) true [] s1) as [[r2 s2] ev2].
  simpl in *. unfold outcome in Hd2; simpl in Hd2; subst r2.
  rewrite called_true, truthy_map_Some in H2. destruct H2 as [_ Hok2].
  destruct (Hok2 d2 eq_refl) as [_ Hc2]. specialize (A2 _ eq_refl).
  rewrite truthy_map_Some in A2.
  unfold outcome, events, after in *; simpl in *. rewrite app_nil_r.
  rewrite shutdown_calls_app, announced_app, Hc1, Hc2, A1, A2. done.
Qed.

Lemma filter_split_Permutation {A} (f : A -> bool) (l : list A) :
  List.filter (fun x => negb (f x)) l ++ List.filter f l ≡ₚ l.
Proof.
  induction l as [|x l IH]; simpl; [done|].
  destruct (f x); simpl.
  - rewrite <- Permutation_middle. by constructor.
  - by constructor.
Qed.

(** X5. When no step's [shutdown] raises, [Namespace.shutdown] returns and
    the steps it has shut down are the truthy entries of the component
    list, each as often as it is listed (once, for a list without
    repetition): no step is skipped and none is shut down twice. *)
Theorem shutdown_each_step_once (cs : list (option Component)) (s : State) :
  shutdowns_return cs →
  outcome (Namespace_shutdown cs s) = Ok tt ∧
  shutdown_calls (events (Namespace_shutdown cs s)) ≡ₚ truthy cs.
Proof.
  intros Hret. destruct (Namespace_shutdown_returning cs s Hret) as (Hok & -> & _).
  split; [done|]. apply filter_split_Permutation.
Qed.

(** X6. When no step's [shutdown] raises, the DEBUG lines of a shutdown name
    every truthy step in list order and then every delayed step again: a
    delayed step is announced twice, once in each pass. *)
Theorem shutdown_announces_delayed_twice (cs : list (option Component)) (s : State) :
  shutdowns_return cs →
  announced (events (Namespace_shutdown cs s)) =
    map qualname (truthy cs) ++ map qualname (delayed_steps cs).
Proof. intros Hret. by destruct (Namespace_shutdown_returning cs s Hret) as (_ & _ & ->). Qed.

(** ** Further properties of the supervisory loop *)

Lemma outcome_after {A} (evs : list Event) (x : Result A * State * list Event) :
  outcome (after evs x) = outcome x.
Proof. by destruct x as [[r s] ev]. Qed.

Lemma final_after {A} (evs : list Event) (x : Result A * State * list Event) :
  final (after evs x) = final x.
Proof. by destruct x as [[r s] ev]. Qed.

(** X7. [start] returns only with the namespace closed: whenever a run of
    [start] ends normally, the state it leaves has [ns.state = CLOSE]. *)
Theorem start_returns_only_closed (self : Consumer) (fuel : nat) (s : State) :
  outcome (start self fuel s) = Ok tt →
  ns_state (final (start self fuel s)) = CLOSE.
Proof.
  revert s. induction fuel as [|fuel IH]; intros s.
  - cbn [start]. unfold bind, gets, out_of_fuel.
    destruct (decide (ns_state s = CLOSE)); [done|]. rewrite after_nil. done.
  - destruct (decide (ns_state s = CLOSE)) as [Hc|Hc].
    { by rewrite start_closed. }
    rewrite start_unfold by done.
    destruct (maybe_shutdown s) as [[[]|e|] s1]; [|done..].
    destruct (start_try self s1) as [[[[]|e|] s2] ev]; [| |done].
    + rewrite outcome_after, final_after. apply IH.
    + destruct (isinstance e (broker_errors self)); [|done].
      destruct (namespace_restart self s2) as [[[]|e'|] s3]; [|done..].
      rewrite outcome_after, final_after. apply IH.
Qed.



(** ** Strategy rebuild *)

(** The entries a registry writes into a table, in iteration order. *)
Lemma update_strategies_loop_final (self : Consumer) (tasks : list (string * string)) :
  ∀ s,
    let s1 := final (update_strategies_loop self tasks s) in
    strategies s1 = foldl (fun m nt => <[nt.1 := nt.2]> m) (strategies s) tasks ∧
    tracers s1 = foldl (fun m nt => <[nt.1 := hostname self]> m) (tracers s) tasks ∧
    ns_state s1 = ns_state s ∧ connection s1 = connection s ∧ qos s1 = qos s ∧
    timer s1 = timer s ∧ ready_queue s1 = ready_queue s.
Proof.
  induction tasks as [|[name strategy] tasks IH]; intros s; simpl.
  - done.
  - unfold bind, emit, modify; simpl. rewrite !final_after.
    match goal with |- context [update_strategies_loop self tasks ?s'] =>
      destruct (IH s') as (I1 & I2 & I3 & I4 & I5 & I6 & I7) end.
    simpl in *. by rewrite I1, I2, I3, I4, I5, I6, I7.
Qed.

Lemma foldl_insert_notin {V} (g : string * V -> string) (tasks : list (string * V)) :
  ∀ (m : gmap string string) (name : string),
    name ∉ tasks.*1 →
    foldl (fun m nt => <[nt.1 := g nt]> m) m tasks !! name = m !! name.
Proof.
  induction tasks as [|[n v] tasks IH]; intros m name Hnot; simpl; [done|].
  rewrite fmap_cons, not_elem_of_cons in Hnot. destruct Hnot as [Hne Hnot].
  rewrite IH by done. by rewrite lookup_insert_ne.
Qed.

Lemma foldl_insert_in {V} (g : string * V -> string) (tasks : list (string * V)) :
  ∀ (m : gmap string string) (nt : string * V),
    NoDup tasks.*1 → nt ∈ tasks →
    foldl (fun m nt => <[nt.1 := g nt]> m) m tasks !! nt.1 = Some (g nt).
Proof.
  induction tasks as [|[n v] tasks IH]; intros m nt Hnd Hin; simpl.
  - by apply elem_of_nil in Hin.
  - rewrite fmap_cons in Hnd. apply NoDup_cons in Hnd as [Hfresh Hnd].
    apply elem_of_cons in Hin as [->|Hin].
    + rewrite foldl_insert_notin by done. simpl. by rewrite lookup_insert_eq.
    + by apply IH.
Qed.

(** X9. [update_strategies] over a registry (a dict: no name twice) always
    returns; afterwards every registered task has its fresh strategy in
    [strategies] and a tracer built for this host; entries under names that
    are not registered are left as they were, so the rebuild overwrites but
    never removes; and nothing else of the consumer's state changes. *)
Theorem update_strategies_rebuild (self : Consumer) (s : State) :
  NoDup (app_tasks self).*1 →
  let r := update_strategies self s in
  outcome r = Ok tt ∧
  (∀ name strategy, (name, strategy) ∈ app_tasks self →
     strategies (final r) !! name = Some strategy ∧
     tracers (final r) !! name = Some (hostname self)) ∧
  (∀ name, name ∉ (app_tasks self).*1 →
     strategies (final r) !! name = strategies s !! name ∧
     tracers (final r) !! name = tracers s !! name) ∧
  ns_state (final r) = ns_state s ∧ connection (final r) = connection s ∧
  qos (final r) = qos s ∧ timer (final r) = timer s ∧
  ready_queue (final r) = ready_queue s.
Proof.
  intros Hnd. simpl. unfold update_strategies.
  destruct (update_strategies_loop_run self (app_tasks self) s) as (s1 & Hrun & _).
  pose proof (update_strategies_loop_final self (app_tasks self) s) as Hfin.
  simpl in Hfin. destruct Hfin as (F1 & F2 & F3 & F4 & F5 & F6 & F7).
  split; [by rewrite Hrun|]. rewrite F1, F2.
  split; [|split; [|done]].
  - intros name strategy Hin. split.
    + apply (foldl_insert_in (fun nt => nt.2) _ _ (name, strategy) Hnd Hin).
    + apply (foldl_insert_in (fun _ => hostname self) _ _ (name, strategy) Hnd Hin).
  - intros name Hnot. split.
    + by apply (foldl_insert_notin (fun nt => nt.2)).
    + by apply (foldl_insert_notin (fun _ => hostname self)).
Qed.

(** ** Ignoring connection errors *)

(** X10. [maybe_conn_error(fun)] makes the calls and leaves the state of
    [fun].  It returns when [fun] returns, and also when [fun] raises an
    [AttributeError] or an error of a kind in [connection_errors] or
    [channel_errors]; any other error of [fun] propagates.  So it never
    raises an error of an ignored kind. *)
Theorem maybe_conn_error_swallows {A} (self : Consumer) (fun_ : M A) (s : State) :
  events (maybe_conn_error self fun_ s) = events (fun_ s) ∧
  final (maybe_conn_error self fun_ s) = final (fun_ s) ∧
  outcome (maybe_conn_error self fun_ s) =
    match outcome (fun_ s) with
    | Ok _ => Ok tt
    | Raise e => if isinstance e (ignored_errors self) then Ok tt else Raise e
    | OutOfFuel => OutOfFuel
    end ∧
  match outcome (maybe_conn_error self fun_ s) with
  | Raise e => isinstance e (ignored_errors self) = false
  | _ => True
  end.
Proof.
  unfold maybe_conn_error, try_except, bind, ret.
  destruct (fun_ s) as [[[a|e|] s1] ev]; unfold outcome, final, events, after;
    cbn [fst snd].
  - by rewrite app_nil_r.
  - destruct (isinstance e (ignored_errors self)) eqn:Hi; cbn [fst snd];
      by rewrite ?app_nil_r.
  - done.
Qed.

(** ** Messages that are not tasks *)


(** ** Qos, timer and ready queue move together *)





(** ** A step that fails to shut down *)

(** X13. When a step's [shutdown] raises during the first pass, the error
    propagates out of [Namespace.shutdown] and the second pass is not run:
    no step with [delay_shutdown] is shut down at all. *)
Theorem shutdown_error_skips_delayed (cs : list (option Component)) (s : State) (e : Exc) :
  outcome (_shutdown_step cs false [] s) = Raise e →
  outcome (Namespace_shutdown cs s) = Raise e ∧
  events (Namespace_shutdown cs s) = events (_shutdown_step cs false [] s) ∧
  Forall (fun c => delay_flag c = false)
         (shutdown_calls (events (Namespace_shutdown cs s))).
Proof.
  intros Hraise. unfold Namespace_shutdown, bind.
  pose proof (_shutdown_step_spec cs false [] s) as [Hp _].
  destruct (_shutdown_step cs false [] s) as [[r1 s1] ev1].
  unfold outcome, events in *; simpl in *. subst r1. simpl.
  split; [done|]. split; [done|].
  destruct Hp as [rest Hrest]. rewrite called_false in Hrest.
  apply Forall_forall. intros c Hc.
  assert (Hin : c ∈ non_delayed cs) by (rewrite Hrest; apply elem_of_app; by left).
  unfold non_delayed in Hin. rewrite list_elem_of_In, filter_In in Hin.
  destruct Hin as [_ Hflag]. by apply negb_true_iff in Hflag.
Qed.

End Consumer.

(** * Sample runs

    The properties above, applied to a concrete worker: datetimes and
    timestamps are seconds since the epoch, the broker fails once with a
    socket error and the event loop closes the consumer on its second run. *)

Module Sample.

Definition std_bases : list string :=
  ["StandardError"; "Exception"; "BaseException"; "object"].

Definition socket_error : Exc :=
  mkExc ("socket.error" :: "IOError" :: "EnvironmentError" :: std_bases)
        "[Errno 104] Connection reset by peer".

Definition overflow_error : Exc :=
  mkExc ("OverflowError" :: "ArithmeticError" :: std_bases)
        "mktime argument out of range".

Definition to_timestamp (d : Z) : Exc + Z :=
  if d <? 2147483648 then inr d else inl overflow_error.

Definition isoformat (d : Z) : string :=
  if d =? 0 then "1970-01-01T00:00:00" else "2038-01-19T03:14:08".

Definition humanize_seconds (secs : Z) (prefix sep : string) : string :=
  if secs =? 0 then "now"
  else String.append prefix (String.append sep "2.00 seconds").

Definition maybe_shutdown : @Extern Z Z unit := fun s => (Ok tt, s).

Definition broker : Connection :=
  mkConnection "amqp://guest@localhost:5672//" (Some ["amqp://guest@standby:5672//"])
    (<["hostname" := IStr "localhost"]> (<["password" := IStr "guest"]> ∅)) 0.

Definition s0 : @State Z Z :=
  mkState NS_INIT None (mkQoS 4 0) [] [] ∅ ∅ true.

Definition set_connection (s : @State Z Z) : @State Z Z :=
  mkState (ns_state s) (Some broker) (qos s) (timer s) (ready_queue s)
    (strategies s) (tracers s) (event_dispatcher_enabled s).

Definition set_closed (s : @State Z Z) : @State Z Z :=
  mkState CLOSE (connection s) (qos s) (timer s) (ready_queue s)
    (strategies s) (tracers s) (event_dispatcher_enabled s).

(** The event loop fails while there is no connection and closes the
    consumer once there is one; a restart brings the connection. *)
Definition consumer : @Consumer Z Z :=
  {| hostname := "worker1.example.com";
     connection_errors := ["socket.error"];
     channel_errors := ["amqp.exceptions.ChannelError"];
     _does_info := true;
     amqheartbeat := 0;
     init_callback := fun s => (Ok tt, s);
     loop := fun s =>
       match connection s with
       | None => (Raise socket_error, s)
       | Some _ => (Ok tt, set_closed s)
       end;
     app_tasks := [("tasks.add", "default")];
     BROKER_CONNECTION_RETRY := false;
     BROKER_CONNECTION_MAX_RETRIES := Some 100;
     app_connection := fun _ => broker;
     connect := fun _ s => (Ok tt, s);
     ensure_connection := fun conn _ _ _ => ret conn;
     start_steps := fun s => (Ok tt, s);
     namespace_restart := fun s => (Ok tt, set_connection s) |}.

Definition pool_step : @Component Z Z :=
  mkComponent "celery.worker.consumer.components.Tasks" (Some true) (fun s => (Ok tt, s)).
Definition connection_step : @Component Z Z :=
  mkComponent "celery.worker.consumer.components.Connection" None (fun s => (Ok tt, s)).

Definition steps : list (option (@Component Z Z)) :=
  [Some pool_step; None; Some connection_step].

Definition add_task : @Task Z :=
  mkTask "7f1c" "tasks.add" "(2, 3)" "{}" None None None false.
Definition late_task : @Task Z :=
  mkTask "9a2e" "tasks.add" "(2, 3)" "{}" (Some 1) (Some 1200) None false.
Definition overflow_task : @Task Z :=
  mkTask "c0de" "tasks.add" "(2, 3)" "{}" None (Some 99999999999) None false.
Definition revoked_task : @Task Z :=
  mkTask "dead" "tasks.add" "(2, 3)" "{}" None (Some 1200) None true.

Definition schedule : list (@Op Z) :=
  [Ingest late_task; Ingest late_task; Fire late_task].

Definition garbage : Message := mkMessage "\x00\x01" "application/json" "utf-8".
Definition decode_error : Exc := mkExc ("ValueError" :: std_bases) "No JSON object could be decoded".

(** One broker failure: the retry message, a restart, and the loop goes on
    to a second start that ends with the consumer closed. *)
Lemma start_recovers_once :
  ns_state s0 ≠ CLOSE ∧
  outcome (start maybe_shutdown consumer 2 s0) = Ok tt ∧
  events (start maybe_shutdown consumer 2 s0) =
    [EvMaybeShutdown; EvNamespaceStart; EvStartStrategy "tasks.add";
     EvBuildTracer "tasks.add" "worker1.example.com"; EvInitCallback;
     EvStartSteps; EvLoop;
     EvLog ERROR CONNECTION_RETRY [] true; EvRestart;
     EvMaybeShutdown; EvNamespaceStart; EvStartStrategy "tasks.add";
     EvBuildTracer "tasks.add" "worker1.example.com"; EvInitCallback;
     EvStartSteps; EvLoop].
Proof.
  split; [discriminate|].
  destruct (start_survives_broker_errors maybe_shutdown consumer 1 s0) as (_ & H & _).
  destruct H as [_ H]; [discriminate|].
  destruct (H s0 eq_refl) as [_ Hraise].
  edestruct Hraise as [Hbroker _]; [reflexivity|].
  destruct Hbroker as [Hrestart _]; [reflexivity|].
  rewrite (Hrestart _ eq_refl). split; reflexivity.
Defined.

(** The delayed step is shut down last. *)
Lemma shutdown_delayed_last :
  shutdowns_return steps ∧
  outcome (Namespace_shutdown steps s0) = Ok tt ∧
  shutdown_calls (events (Namespace_shutdown steps s0)) = [connection_step; pool_step].
Proof.
  assert (Hret : shutdowns_return steps).
  { intros c s Hin. unfold steps in Hin.
    apply elem_of_cons in Hin as [[= ->]|Hin]; [reflexivity|].
    apply elem_of_cons in Hin as [[=]|Hin].
    apply elem_of_cons in Hin as [[= ->]|Hin]; [reflexivity|].
    by apply elem_of_nil in Hin. }
  split; [exact Hret|].
  destruct (Namespace_shutdown_two_phase steps s0)
    as (first & second & Hev & _ & _ & _ & Hok & Hreturns).
  split; [exact (Hreturns Hret)|].
  destruct (Hok (Hreturns Hret)) as [H1 H2].
  rewrite Hev, shutdown_calls_app, H1, H2. reflexivity.
Defined.

(** An eta too far away to convert: ERROR line, acknowledge, nothing else. *)
Lemma on_task_overflow_run :
  on_task to_timestamp isoformat consumer overflow_task s0 =
    (Ok tt, s0,
     [EvLog INFO "Got task from broker: %s" [ATask overflow_task] false;
      EvSend "task-received" overflow_task 0 (Some "2038-01-19T03:14:08") None;
      EvLog ERROR "Couldn't convert eta %s to timestamp: %r. Task: %r"
        [AEta 99999999999; AExc overflow_error; ATaskInfo overflow_task true] true;
      EvTaskAcknowledge overflow_task]).
Proof.
  exact (proj1 (on_task_eta_overflow to_timestamp isoformat consumer overflow_task s0
                  99999999999 overflow_error eq_refl eq_refl eq_refl eq_refl)).
Defined.

(** Two ETA tasks scheduled, one fired: the pending delta of qos is one. *)
Lemma qos_balance_run :
  forallb (is_eta_op to_timestamp) schedule = true ∧
  outcome (run_ops to_timestamp isoformat consumer schedule s0) = Ok tt ∧
  qos_pending (qos (final (run_ops to_timestamp isoformat consumer schedule s0)))
    - qos_pending (qos s0) = 1.
Proof.
  split; [reflexivity|].
  destruct (qos_balance to_timestamp isoformat consumer schedule s0 eq_refl)
    as (_ & _ & Hok & _ & _ & Hdelta).
  split; [exact Hok | exact Hdelta].
Defined.

(** A revoked task leaves no trace. *)
Lemma on_task_revoked_run :
  t_revoked revoked_task = true ∧
  on_task to_timestamp isoformat consumer revoked_task s0 = (Ok tt, s0, []).
Proof.
  split; [reflexivity|].
  exact (on_task_revoked to_timestamp isoformat consumer revoked_task s0 eq_refl).
Defined.

(** With an alternate host and interval 0 the failover message is logged. *)
Lemma error_handler_failover_run :
  _error_handler humanize_seconds broker socket_error 0 s0 =
    (Ok tt, s0,
     [EvLog ERROR CONNECTION_ERROR
        [AStr "amqp://guest@localhost:5672//"; AExc socket_error;
         AStr "Will retry using next failover."] false]).
Proof.
  destruct (error_handler_message humanize_seconds broker socket_error 0 s0)
    as (msg & Hrun & Hiff & _).
  rewrite Hrun.
  assert (Hmsg : msg = FAILOVER_MESSAGE).
  { apply Hiff. split; [|reflexivity]. eexists _, _. reflexivity. }
  rewrite Hmsg. reflexivity.
Defined.

(** Retry disabled: the connection is built and connected once. *)
Lemma open_connection_without_retry_run :
  BROKER_CONNECTION_RETRY consumer = false ∧
  outcome (_open_connection humanize_seconds maybe_shutdown consumer s0) = Ok broker ∧
  events (_open_connection humanize_seconds maybe_shutdown consumer s0) =
    [EvAppConnection 0; EvConnect broker].
Proof.
  split; [reflexivity|].
  destruct (open_connection_without_retry humanize_seconds maybe_shutdown consumer s0 eq_refl)
    as (Hev & _ & Hok & _).
  split; [exact (Hok tt eq_refl) | exact Hev].
Defined.

(** One broker failure, two calls of [init_callback]. *)
Lemma init_callback_called_twice :
  ns_state s0 ≠ CLOSE ∧
  count is_init_callback (events (start maybe_shutdown consumer 2 s0)) = 2%nat.
Proof.
  split; [discriminate|].
  destruct (init_callback_on_every_start maybe_shutdown consumer 1 s0) as (_ & _ & _ & H).
  assert (Hopen : ns_state s0 ≠ CLOSE) by discriminate.
  rewrite (H Hopen s0 _ _ _ _ eq_refl eq_refl eq_refl eq_refl). reflexivity.
Defined.

(** ** Further sample runs *)

Definition type_error : Exc :=
  mkExc ("TypeError" :: std_bases) "an integer is required".

(** A conversion that refuses dates before the epoch with a [TypeError]. *)
Definition to_timestamp_strict (d : Z) : Exc + Z :=
  if d <? 0 then inl type_error else to_timestamp d.

Definition early_task : @Task Z :=
  mkTask "0bad" "tasks.add" "(2, 3)" "{}" None (Some (-1)) None false.

Definition inbox : list (@Task Z) := [add_task; revoked_task; add_task].

(** A state that still holds the strategy of a task no longer registered. *)
Definition s_stale : @State Z Z :=
  mkState NS_INIT None (mkQoS 4 0) [] [] (<["tasks.old" := "stale"]> ∅) ∅ true.

Definition failing_step : @Component Z Z :=
  mkComponent "celery.worker.consumer.components.Events" None
    (fun s => (Raise socket_error, s)).

Definition broken_steps : list (option (@Component Z Z)) :=
  [Some pool_step; Some failing_step; Some connection_step].

Lemma steps_return : shutdowns_return steps.
Proof.
  intros c s Hin. unfold steps in Hin.
  apply elem_of_cons in Hin as [[= ->]|Hin]; [reflexivity|].
  apply elem_of_cons in Hin as [[=]|Hin].
  apply elem_of_cons in Hin as [[= ->]|Hin]; [reflexivity|].
  by apply elem_of_nil in Hin.
Qed.

Lemma inbox_reaches_pool_in_order :
  forallb (fun t => t_revoked t || no_eta t) inbox = true ∧
  ready_queue (final (run_ops to_timestamp isoformat consumer (map Ingest inbox) s0)) =
    [add_task; add_task].
Proof.
  split; [reflexivity|].
  destruct (on_task_immediate_fifo to_timestamp isoformat consumer inbox s0 eq_refl)
    as (_ & Hqueue & _).
  exact Hqueue.
Defined.

Lemma early_eta_raises :
  on_task to_timestamp_strict isoformat consumer early_task s0 =
    (Raise type_error, s0,
     [EvLog INFO "Got task from broker: %s" [ATask early_task] false;
      EvSend "task-received" early_task 0 (Some "2038-01-19T03:14:08") None]).
Proof.
  exact (proj1 (on_task_eta_error_propagates to_timestamp_strict isoformat consumer
                  early_task s0 (-1) type_error eq_refl eq_refl eq_refl eq_refl)).
Defined.

Lemma late_task_round_trip :
  eta_schedulable to_timestamp late_task = true ∧
  qos (final ((bind (on_task to_timestamp isoformat consumer late_task)
                    (fun _ => apply_eta_task late_task)) s0)) = qos s0 ∧
  ready_queue (final ((bind (on_task to_timestamp isoformat consumer late_task)
                            (fun _ => apply_eta_task late_task)) s0)) = [late_task].
Proof.
  split; [reflexivity|].
  destruct (eta_round_trip to_timestamp isoformat consumer late_task s0 eq_refl)
    as (_ & Hqos & Hqueue & _).
  split; [exact Hqos | exact Hqueue].
Defined.

Lemma steps_shut_down_once :
  shutdowns_return steps ∧
  shutdown_calls (events (Namespace_shutdown steps s0)) ≡ₚ [pool_step; connection_step].
Proof.
  split; [exact steps_return|].
  exact (proj2 (shutdown_each_step_once steps s0 steps_return)).
Defined.

Lemma steps_announced :
  shutdowns_return steps ∧
  announced (events (Namespace_shutdown steps s0)) =
    ["celery.worker.consumer.components.Tasks";
     "celery.worker.consumer.components.Connection";
     "celery.worker.consumer.components.Tasks"].
Proof.
  split; [exact steps_return|].
  exact (shutdown_announces_delayed_twice steps s0 steps_return).
Defined.

Lemma start_ends_closed :
  outcome (start maybe_shutdown consumer 2 s0) = Ok tt ∧
  ns_state (final (start maybe_shutdown consumer 2 s0)) = CLOSE.
Proof.
  split; [reflexivity|].
  exact (start_returns_only_closed maybe_shutdown consumer 2 s0 eq_refl).
Defined.

Lemma stale_strategy_kept :
  NoDup (app_tasks consumer).*1 ∧
  strategies (final (update_strategies consumer s_stale)) !! "tasks.add" = Some "default" ∧
  strategies (final (update_strategies consumer s_stale)) !! "tasks.old" = Some "stale".
Proof.
  assert (Hnd : NoDup (app_tasks consumer).*1).
  { apply NoDup_cons. split; [apply not_elem_of_nil | apply NoDup_nil_2]. }
  split; [exact Hnd|].
  destruct (update_strategies_rebuild consumer s_stale Hnd) as (_ & Hreg & Hkeep & _).
  split.
  - apply (Hreg "tasks.add" "default"). apply list_elem_of_here.
  - destruct (Hkeep "tasks.old") as [Hold _]; [|rewrite Hold; reflexivity].
    intros Hin. apply elem_of_cons in Hin as [Heq|Hin]; [discriminate Heq|].
    by apply elem_of_nil in Hin.
Defined.

Lemma failing_step_stops_shutdown :
  outcome (Namespace_shutdown broken_steps s0) = Raise socket_error ∧
  shutdown_calls (events (Namespace_shutdown broken_steps s0)) = [failing_step].
Proof.
  destruct (shutdown_error_skips_delayed broken_steps s0 socket_error eq_refl)
    as (Hout & Hev & _).
  split; [exact Hout|]. rewrite Hev. reflexivity.
Defined.

End Sample.
